(** * lsc_vm: a shallow embedding of [src/main.c]

    The program is an unfinished virtual machine for the LC-3.  This file
    embeds its data (the memory array, the register file, the run flag), its
    two helper functions ([lsc_sign_extend], [lsc_update_flags]) and the body
    of the execution loop of [main], and states the properties of the
    specification over them.

    Conventions.  A [uint16_t] is a [Z] in [0, 2^16).  C evaluates [uint16_t]
    operands after promotion to [int], so sums, shifts and bitwise operations
    are taken in [Z]; where the [int] can fall outside [0, 2^16) the
    conversion of the assignment that stores it is written out as [u16]. *)

From Stdlib Require Import ZArith Lia Bool List String Ascii.
From stdpp Require Import base option list gmap.

Local Open Scope Z_scope.

(** ** Constants *)

(** [#define LSC_MEMORY_MAX (1 << 16)] *)
Definition LSC_MEMORY_MAX : Z := Z.shiftl 1 16.

(** Conversion of an [int] to [uint16_t]. *)
Definition u16 (x : Z) : Z := x mod LSC_MEMORY_MAX.

(** The register enumeration. *)
Definition LSC_R_R0 : Z := 0.
Definition LSC_R_R1 : Z := 1.
Definition LSC_R_R2 : Z := 2.
Definition LSC_R_R3 : Z := 3.
Definition LSC_R_R4 : Z := 4.
Definition LSC_R_R5 : Z := 5.
Definition LSC_R_R6 : Z := 6.
Definition LSC_R_R7 : Z := 7.
Definition LSC_R_PC : Z := 8.
Definition LSC_R_COND : Z := 9.
Definition LSC_R_COUNT : Z := 10.

(** The opcode enumeration, in the order of the source. *)
Inductive opcode : Set :=
| LSC_OP_BR | LSC_OP_ADD | LSC_OP_LD | LSC_OP_ST
| LSC_OP_JSR | LSC_OP_AND | LSC_OP_LDR | LSC_OP_STR
| LSC_OP_RTI | LSC_OP_NOT | LSC_OP_LDI | LSC_OP_STI
| LSC_OP_JMP | LSC_OP_RES | LSC_OP_LEA | LSC_OP_TRAP.

Definition opcode_value (o : opcode) : Z :=
  match o with
  | LSC_OP_BR => 0 | LSC_OP_ADD => 1 | LSC_OP_LD => 2 | LSC_OP_ST => 3
  | LSC_OP_JSR => 4 | LSC_OP_AND => 5 | LSC_OP_LDR => 6 | LSC_OP_STR => 7
  | LSC_OP_RTI => 8 | LSC_OP_NOT => 9 | LSC_OP_LDI => 10 | LSC_OP_STI => 11
  | LSC_OP_JMP => 12 | LSC_OP_RES => 13 | LSC_OP_LEA => 14 | LSC_OP_TRAP => 15
  end.

(** The [case] label that [switch (op)] selects; [None] is [default]. *)
Definition opcode_of (op : Z) : option opcode :=
  match op with
  | 0 => Some LSC_OP_BR | 1 => Some LSC_OP_ADD | 2 => Some LSC_OP_LD
  | 3 => Some LSC_OP_ST | 4 => Some LSC_OP_JSR | 5 => Some LSC_OP_AND
  | 6 => Some LSC_OP_LDR | 7 => Some LSC_OP_STR | 8 => Some LSC_OP_RTI
  | 9 => Some LSC_OP_NOT | 10 => Some LSC_OP_LDI | 11 => Some LSC_OP_STI
  | 12 => Some LSC_OP_JMP | 13 => Some LSC_OP_RES | 14 => Some LSC_OP_LEA
  | 15 => Some LSC_OP_TRAP
  | _ => None
  end.

(** The condition flags. *)
Definition LSC_FL_POS : Z := Z.shiftl 1 0.
Definition LSC_FL_ZRO : Z := Z.shiftl 1 1.
Definition LSC_FL_NEG : Z := Z.shiftl 1 2.

(** [enum { PC_START = 0x3000 }] *)
Definition PC_START : Z := 0x3000.

(** ** Sign extension *)

(** [lsc_sign_extend]: when bit [bit_count - 1] of [x] is set, [x] is or-ed
    with [0xFFFF << bit_count] and stored back into the [uint16_t] [x].  At
    [bit_count = 16] the shifted constant has no bit below position 16, so the
    truncated result is [x] itself. *)
Definition lsc_sign_extend (x : Z) (bit_count : Z) : Z :=
  if negb (Z.land (Z.shiftr x (bit_count - 1)) 1 =? 0)
  then u16 (Z.lor x (Z.shiftl 0xFFFF bit_count))
  else x.

(** ** The machine *)

(** The objects of the program: the global arrays [lsc_memory] and [lsc_reg]
    and the local [running] of [main].  [lsc_memory] is zero-initialised
    static storage and is kept as a finite map in which an absent address
    holds 0.  [lsc_reg] has [LSC_R_COUNT] slots.

    [outside] holds the [uint16_t] cells that are not part of [lsc_reg] but
    that the program reaches through a pointer computed from [&lsc_reg]; they
    are keyed by their distance from [lsc_reg[0]], counted in elements.  Which
    object such a cell belongs to is decided by the linker and is left open:
    a cell never written here reads as 0, and no statement below depends on
    what is read from one. *)
Record machine : Type := Machine {
  lsc_memory : gmap Z Z;
  lsc_reg : list Z;
  outside : gmap Z Z;
  running : bool
}.

Definition with_reg (regs : list Z) (m : machine) : machine :=
  {| lsc_memory := lsc_memory m; lsc_reg := regs;
     outside := outside m; running := running m |}.

Definition with_outside (o : gmap Z Z) (m : machine) : machine :=
  {| lsc_memory := lsc_memory m; lsc_reg := lsc_reg m;
     outside := o; running := running m |}.

(** [lsc_memory[a]] *)
Definition mem_read (m : machine) (a : Z) : Z := default 0 (lsc_memory m !! a).

(** [lsc_reg[i]] as an rvalue and as the target of an assignment. *)
Definition reg_read (m : machine) (i : Z) : Z :=
  default 0 (lsc_reg m !! Z.to_nat i).

Definition reg_write (i v : Z) (m : machine) : machine :=
  with_reg (<[Z.to_nat i := v]> (lsc_reg m)) m.

(** A machine whose register file has its ten slots, each a [uint16_t]. *)
Definition wf (m : machine) : Prop :=
  length (lsc_reg m) = Z.to_nat LSC_R_COUNT ∧
  Forall (λ v, 0 <= v < LSC_MEMORY_MAX) (lsc_reg m).

(** ** Accesses through [LSC_REGISTER *reg] *)

(** [lsc_update_flags] receives [reg = &lsc_reg], a pointer to an array of
    ten [uint16_t].  Indexing it, [reg[k]], designates the [k]-th such array
    counted from [lsc_reg]; used as a value it is the address of the first
    element of that array, which lies [k * LSC_R_COUNT] elements after
    [lsc_reg[0]].  A pointer of the function is therefore either null or an
    element offset from [lsc_reg[0]]. *)
Inductive pointer : Set :=
| Null
| Elem (off : Z).

(** [reg[k]] *)
Definition reg_at (k : Z) : pointer := Elem (k * LSC_R_COUNT).

(** [p == 0] *)
Definition is_null (p : pointer) : bool :=
  match p with Null => true | Elem _ => false end.

(** The offsets that fall inside the object [lsc_reg]. *)
Definition in_lsc_reg (off : Z) : bool := (0 <=? off) && (off <? LSC_R_COUNT).

Inductive access : Set :=
| Read (off : Z)
| Write (off : Z).

Definition access_offset (a : access) : Z :=
  match a with Read off | Write off => off end.

(** A computation on the machine that records the accesses it makes through
    [reg]. *)
Definition M (A : Type) : Type := machine → A * machine * list access.

Definition ret {A} (a : A) : M A := λ m, (a, m, []).

Definition bind {A B} (c : M A) (k : A → M B) : M B :=
  λ m, let '(a, m1, t1) := c m in
       let '(b, m2, t2) := k a m1 in
       (b, m2, t1 ++ t2).

Notation "x ←← c ; k" := (bind c (λ x, k))
  (at level 100, c at next level, right associativity).

(** [*p] as an rvalue.  The cell is one the process can read, as are the
    cells [10 * r] places after [lsc_reg[0]] for the register indices 0 to 7
    that the callers of [lsc_update_flags] pass; a read of an address that is
    not mapped ends the process and has no counterpart here. *)
Definition load (p : pointer) : M Z :=
  λ m, match p with
       | Null => (0, m, [])
       | Elem off =>
           (if in_lsc_reg off
            then default 0 (lsc_reg m !! Z.to_nat off)
            else default 0 (outside m !! off),
            m, [Read off])
       end.

(** [*p = v] *)
Definition store (p : pointer) (v : Z) : M unit :=
  λ m, match p with
       | Null => (tt, m, [])
       | Elem off =>
           (tt,
            if in_lsc_reg off
            then with_reg (<[Z.to_nat off := v]> (lsc_reg m)) m
            else with_outside (<[off := v]> (outside m)) m,
            [Write off])
       end.

(** ** Condition flags *)

(** [lsc_update_flags(r, reg)] with [reg = &lsc_reg], statement by statement:
    [reg[r] == 0] compares an address, [*reg[r]] and [*reg[LSC_R_COND]] are
    the first elements of the arrays [reg[r]] and [reg[LSC_R_COND]], and both
    the [else if] and the [else] branch store [LSC_FL_NEG]. *)
Definition lsc_update_flags_M (r : Z) : M unit :=
  if is_null (reg_at r) then
    store (reg_at LSC_R_COND) LSC_FL_ZRO
  else
    v ←← load (reg_at r);
    if negb (Z.shiftr v 15 =? 0) then
      store (reg_at LSC_R_COND) LSC_FL_NEG
    else
      store (reg_at LSC_R_COND) LSC_FL_NEG.

Definition lsc_update_flags (r : Z) (m : machine) : machine :=
  snd (fst (lsc_update_flags_M r m)).

Definition lsc_update_flags_accesses (r : Z) (m : machine) : list access :=
  snd (lsc_update_flags_M r m).

(** ** The execution loop of [main] *)

(** Operand fields as the [case] bodies compute them. *)
Definition field_dr (instr : Z) : Z := Z.land (Z.shiftr instr 9) 0x7.
Definition field_sr1 (instr : Z) : Z := Z.land (Z.shiftr instr 6) 0x7.
Definition field_mode (instr : Z) : Z := Z.land (Z.shiftr instr 5) 0x1.
Definition field_sr2 (instr : Z) : Z := Z.land instr 0x7.
Definition field_imm5 (instr : Z) : Z := Z.land instr 0x1F.

(** [case LSC_OP_ADD] *)
Definition add_operand2 (instr : Z) (m : machine) : Z :=
  if field_mode instr =? 1
  then lsc_sign_extend (field_imm5 instr) 5
  else reg_read m (field_sr2 instr).

Definition op_add (instr : Z) (m : machine) : machine :=
  let dr := field_dr instr in
  let sr := field_sr1 instr in
  let n2 := add_operand2 instr m in
  let m1 := reg_write dr (u16 (reg_read m sr + n2)) m in
  lsc_update_flags dr m1.

(** [case LSC_OP_AND] *)
Definition and_operand2 (instr : Z) (m : machine) : Z :=
  if field_mode instr =? 1
  then field_imm5 instr
  else reg_read m (field_sr2 instr).

Definition op_and (instr : Z) (m : machine) : machine :=
  let dr := field_dr instr in
  let sr1 := field_sr1 instr in
  let n2 := and_operand2 instr m in
  let m1 := reg_write dr (Z.land (reg_read m sr1) n2) m in
  lsc_update_flags dr m1.

(** [case LSC_OP_LDI]: the offset is taken from [instr & 0x9], the
    destination from [(instr >> 9) & 0x3]; [pc_address] is computed and the
    load itself is left as a stub, so that only the flag update acts on the
    machine. *)
Definition ldi_pcoffset9 (instr : Z) : Z := lsc_sign_extend (Z.land instr 0x9) 9.
Definition ldi_dr (instr : Z) : Z := Z.land (Z.shiftr instr 9) 0x3.
Definition ldi_pc_address (instr : Z) (m : machine) : Z :=
  u16 (reg_read m LSC_R_PC + ldi_pcoffset9 instr).

Definition op_ldi (instr : Z) (m : machine) : machine :=
  let pcoffset9 := ldi_pcoffset9 instr in
  let dr := ldi_dr instr in
  let pc_address := ldi_pc_address instr m in
  lsc_update_flags dr m.

(** [switch (op)] with [op = instr >> 12].  [LSC_OP_STI] has no [case] label
    of its own and is taken by [default]. *)
Definition execute (instr : Z) (m : machine) : machine :=
  let op := Z.shiftr instr 12 in
  match opcode_of op with
  | Some LSC_OP_ADD => op_add instr m
  | Some LSC_OP_AND => op_and instr m
  | Some LSC_OP_NOT => m
  | Some LSC_OP_BR => m
  | Some LSC_OP_JMP => m
  | Some LSC_OP_JSR => m
  | Some LSC_OP_LD => m
  | Some LSC_OP_LDI => op_ldi instr m
  | Some LSC_OP_LDR => m
  | Some LSC_OP_LEA => m
  | Some LSC_OP_ST => m
  | Some LSC_OP_STR => m
  | Some LSC_OP_TRAP => m
  | Some LSC_OP_RES => m
  | Some LSC_OP_RTI => m
  | Some LSC_OP_STI | None => m
  end.

(** [uint16_t instr = 0;] under the comment "Fetch instr / STUB": the
    instruction of an iteration does not depend on the machine. *)
Definition fetch (m : machine) : Z := 0.

(** One iteration of [while (running)]. *)
Definition loop_body (m : machine) : machine :=
  let instr := fetch m in
  execute instr m.

(** [while (running) { ... }], cut after [fuel] iterations. *)
Fixpoint run (fuel : nat) (m : machine) : machine :=
  match fuel with
  | O => m
  | S k => if running m then run k (loop_body m) else m
  end.

(** The machine when the loop is entered: static storage is zero, the image
    loader is a stub, [lsc_reg[LSC_R_COND] = LSC_FL_ZRO],
    [lsc_reg[LSC_R_PC] = PC_START] and [running = 1]. *)
Definition zeroed (out : gmap Z Z) : machine :=
  {| lsc_memory := ∅;
     lsc_reg := replicate (Z.to_nat LSC_R_COUNT) 0;
     outside := out;
     running := true |}.

Definition main_init (out : gmap Z Z) : machine :=
  reg_write LSC_R_PC PC_START (reg_write LSC_R_COND LSC_FL_ZRO (zeroed out)).

(** The machines that the dispatch can produce from the initial one, for any
    sequence of instructions (the loop of [main] itself only ever supplies
    [fetch m]). *)
Inductive reachable : machine → Prop :=
| reachable_init out : reachable (main_init out)
| reachable_step instr m : reachable m → reachable (execute instr m).

(** The condition-flags register holds exactly one of the three flags. *)
Definition one_flag (c : Z) : bool :=
  (c =? LSC_FL_POS) || (c =? LSC_FL_ZRO) || (c =? LSC_FL_NEG).

Definition cond_of (m : machine) : Z := reg_read m LSC_R_COND.
Definition pc_of (m : machine) : Z := reg_read m LSC_R_PC.

(** The opcodes whose [case] consists of [break] alone, or that fall to
    [default]. *)
Definition idle_opcode (o : opcode) : bool :=
  match o with
  | LSC_OP_NOT | LSC_OP_BR | LSC_OP_JMP | LSC_OP_JSR | LSC_OP_LD
  | LSC_OP_LDR | LSC_OP_LEA | LSC_OP_ST | LSC_OP_STR | LSC_OP_STI
  | LSC_OP_TRAP | LSC_OP_RTI | LSC_OP_RES => true
  | LSC_OP_ADD | LSC_OP_AND | LSC_OP_LDI => false
  end.

(** ** Machines used as concrete inputs *)

Definition with_memory (mem : gmap Z Z) (m : machine) : machine :=
  {| lsc_memory := mem; lsc_reg := lsc_reg m;
     outside := outside m; running := running m |}.

(** The initial machine with nothing recorded outside [lsc_reg]. *)
Definition boot : machine := main_init ∅.

(** ** [main] as a whole *)

(** How a call of [main] stands after at most [fuel] iterations of its loop:
    it has left through [exit] after printing, it has returned, or the loop
    is still going on the machine given. *)
Inductive outcome : Type :=
| Exited (status : Z) (printed : string)
| Returned (status : Z)
| StillRunning (m : machine).

(** The text of [printf("lsc_vm [image-file1] ...\n")]. *)
Definition usage : string :=
  ("lsc_vm [image-file1] ..." ++ String "010"%char EmptyString)%string.

(** [main(argc, argv)]: with fewer than two arguments the usage text is
    printed and the process exits with status 2; otherwise the loop over the
    image files does nothing (its body is a stub), the two registers are set
    and the execution loop is entered; [return 0] follows the loop. *)
Definition main (fuel : nat) (argc : Z) (out : gmap Z Z) : outcome :=
  if argc <? 2 then Exited 2 usage
  else
    let m := run fuel (main_init out) in
    if running m then StillRunning m else Returned 0.

(** * Properties *)

(** ** Small facts about the constants and the fields *)

Example sign_extend_minus_seven : lsc_sign_extend 0x9 4 = 0xFFF9.
Proof. reflexivity. Qed.

Example sign_extend_imm5_minus_one : lsc_sign_extend 0x1F 5 = 0xFFFF.
Proof. reflexivity. Qed.

Example sign_extend_imm5_fifteen : lsc_sign_extend 0x0F 5 = 0x0F.
Proof. reflexivity. Qed.

Example sign_extend_full_width : lsc_sign_extend 0x8001 16 = 0x8001.
Proof. reflexivity. Qed.

Lemma opcode_of_value (o : opcode) : opcode_of (opcode_value o) = Some o.
Proof. destruct o; reflexivity. Qed.

Lemma u16_range (x : Z) : 0 <= u16 x < LSC_MEMORY_MAX.
Proof. unfold u16. apply Z.mod_pos_bound. reflexivity. Qed.

Lemma u16_land (x : Z) : u16 x = Z.land x (Z.ones 16).
Proof. unfold u16. rewrite Z.land_ones by lia. reflexivity. Qed.

Lemma land7_range (x : Z) : 0 <= Z.land x 0x7 < 8.
Proof.
  change 0x7 with (Z.ones 3). rewrite Z.land_ones by lia.
  apply Z.mod_pos_bound. reflexivity.
Qed.

Lemma field_dr_range (instr : Z) : 0 <= field_dr instr < 8.
Proof. apply land7_range. Qed.

Lemma field_dr_slot (instr : Z) (regs : list Z) :
  length regs = Z.to_nat LSC_R_COUNT →
  (Z.to_nat (field_dr instr) < length regs)%nat.
Proof.
  intros ->. pose proof (field_dr_range instr). unfold LSC_R_COUNT. lia.
Qed.

Lemma field_dr_not_cond (instr : Z) :
  Z.to_nat (field_dr instr) ≠ Z.to_nat LSC_R_COND.
Proof. pose proof (field_dr_range instr). unfold LSC_R_COND. lia. Qed.

(** ** Register reads and writes *)

Section RegisterFile.
Variable m : machine.

Lemma reg_read_write_same (i v : Z) :
  (Z.to_nat i < length (lsc_reg m))%nat →
  reg_read (reg_write i v m) i = v.
Proof.
  intros Hi. unfold reg_read, reg_write, with_reg. simpl.
  rewrite list_lookup_insert_eq by exact Hi. reflexivity.
Qed.

Lemma reg_read_write_other (i j v : Z) :
  Z.to_nat i ≠ Z.to_nat j →
  reg_read (reg_write i v m) j = reg_read m j.
Proof.
  intros Hij. unfold reg_read, reg_write, with_reg. simpl.
  rewrite list_lookup_insert_ne by exact Hij. reflexivity.
Qed.

Lemma reg_write_length (i v : Z) :
  length (lsc_reg (reg_write i v m)) = length (lsc_reg m).
Proof. unfold reg_write, with_reg. simpl. apply length_insert. Qed.

Lemma reg_write_running (i v : Z) : running (reg_write i v m) = running m.
Proof. reflexivity. Qed.

Lemma reg_write_memory (i v : Z) :
  lsc_memory (reg_write i v m) = lsc_memory m.
Proof. reflexivity. Qed.
End RegisterFile.

(** ** What [lsc_update_flags] does *)

Section UpdateFlags.
Variables (r : Z) (m : machine).

(** No pointer obtained by indexing [reg] is null, so the first branch of
    the function is never taken. *)
Lemma reg_at_not_null (k : Z) : is_null (reg_at k) = false.
Proof. reflexivity. Qed.

(** The flag is stored [LSC_R_COND * LSC_R_COUNT] elements after
    [lsc_reg[0]], and it is [LSC_FL_NEG] whatever was read. *)
Lemma lsc_update_flags_unfold :
  lsc_update_flags r m =
  with_outside (<[LSC_R_COND * LSC_R_COUNT := LSC_FL_NEG]> (outside m)) m.
Proof.
  unfold lsc_update_flags, lsc_update_flags_M, bind, load, store, reg_at.
  simpl. destruct (negb _); reflexivity.
Qed.

Lemma lsc_update_flags_reg : lsc_reg (lsc_update_flags r m) = lsc_reg m.
Proof. rewrite lsc_update_flags_unfold. reflexivity. Qed.

Lemma lsc_update_flags_memory :
  lsc_memory (lsc_update_flags r m) = lsc_memory m.
Proof. rewrite lsc_update_flags_unfold. reflexivity. Qed.

Lemma lsc_update_flags_running : running (lsc_update_flags r m) = running m.
Proof. rewrite lsc_update_flags_unfold. reflexivity. Qed.

Lemma lsc_update_flags_read (i : Z) :
  reg_read (lsc_update_flags r m) i = reg_read m i.
Proof. unfold reg_read. rewrite lsc_update_flags_reg. reflexivity. Qed.

Lemma lsc_update_flags_trace :
  lsc_update_flags_accesses r m =
  [Read (r * LSC_R_COUNT); Write (LSC_R_COND * LSC_R_COUNT)].
Proof.
  unfold lsc_update_flags_accesses, lsc_update_flags_M, bind, load, store,
    reg_at.
  simpl. destruct (negb _); reflexivity.
Qed.
End UpdateFlags.

(** ** What the dispatch does to the register file *)

Lemma op_add_read (instr : Z) (m : machine) :
  length (lsc_reg m) = Z.to_nat LSC_R_COUNT →
  reg_read (op_add instr m) (field_dr instr) =
  u16 (reg_read m (field_sr1 instr) + add_operand2 instr m).
Proof.
  intros Hlen. unfold op_add. rewrite lsc_update_flags_read.
  apply reg_read_write_same, field_dr_slot, Hlen.
Qed.

Lemma op_and_read (instr : Z) (m : machine) :
  length (lsc_reg m) = Z.to_nat LSC_R_COUNT →
  reg_read (op_and instr m) (field_dr instr) =
  Z.land (reg_read m (field_sr1 instr)) (and_operand2 instr m).
Proof.
  intros Hlen. unfold op_and. rewrite lsc_update_flags_read.
  apply reg_read_write_same, field_dr_slot, Hlen.
Qed.

Lemma op_ldi_reg (instr : Z) (m : machine) :
  lsc_reg (op_ldi instr m) = lsc_reg m.
Proof. unfold op_ldi. apply lsc_update_flags_reg. Qed.

Lemma execute_cond (instr : Z) (m : machine) :
  cond_of (execute instr m) = cond_of m.
Proof.
  unfold execute.
  destruct (opcode_of (Z.shiftr instr 12)) as [[]|]; try reflexivity.
  - unfold op_add, cond_of. rewrite lsc_update_flags_read.
    apply reg_read_write_other, field_dr_not_cond.
  - unfold op_and, cond_of. rewrite lsc_update_flags_read.
    apply reg_read_write_other, field_dr_not_cond.
  - unfold op_ldi, cond_of. apply lsc_update_flags_read.
Qed.

Lemma execute_running (instr : Z) (m : machine) :
  running (execute instr m) = running m.
Proof.
  unfold execute.
  destruct (opcode_of (Z.shiftr instr 12)) as [[]|]; try reflexivity.
  - unfold op_add. rewrite lsc_update_flags_running. reflexivity.
  - unfold op_and. rewrite lsc_update_flags_running. reflexivity.
  - unfold op_ldi. apply lsc_update_flags_running.
Qed.

Lemma execute_memory (instr : Z) (m : machine) :
  lsc_memory (execute instr m) = lsc_memory m.
Proof.
  unfold execute.
  destruct (opcode_of (Z.shiftr instr 12)) as [[]|]; try reflexivity.
  - unfold op_add. rewrite lsc_update_flags_memory. reflexivity.
  - unfold op_and. rewrite lsc_update_flags_memory. reflexivity.
  - unfold op_ldi. apply lsc_update_flags_memory.
Qed.

Lemma loop_body_fixed (m : machine) : loop_body m = m.
Proof. reflexivity. Qed.

Lemma run_fixed (fuel : nat) (m : machine) : run fuel m = m.
Proof.
  revert m. induction fuel as [|k IH]; intros m; simpl; [reflexivity|].
  destruct (running m); [|reflexivity].
  rewrite loop_body_fixed. apply IH.
Qed.

(** ** Well-formed machines *)

Lemma boot_wf : wf boot.
Proof.
  split; [reflexivity|].
  unfold boot, main_init, zeroed, reg_write, with_reg. simpl.
  repeat constructor; vm_compute; intuition discriminate.
Qed.

Lemma reg_write_wf (i v : Z) (m : machine) :
  wf m → 0 <= v < LSC_MEMORY_MAX → wf (reg_write i v m).
Proof.
  intros [Hlen Hall] Hv. split.
  - rewrite reg_write_length. exact Hlen.
  - unfold reg_write, with_reg. simpl. apply Forall_insert; assumption.
Qed.

(** ** Sign extension (C7) *)

(** C7: for every 16-bit value [v] and every width [b] in [1,16], sign
    extending the low [b] bits of [v] and masking the result back to [b] bits
    gives the low [b] bits of [v] again. *)
Theorem C7_sign_extend_roundtrip (v b : Z) :
  0 <= v < LSC_MEMORY_MAX →
  1 <= b <= 16 →
  Z.land (lsc_sign_extend (Z.land v (Z.ones b)) b) (Z.ones b)
  = Z.land v (Z.ones b).
Proof.
  intros _ Hb. unfold lsc_sign_extend.
  destruct (negb _).
  - apply Z.bits_inj'. intros n Hn.
    rewrite u16_land, !Z.land_spec, Z.lor_spec, Z.land_spec.
    destruct (Z.ltb_spec n b) as [Hlt|Hge].
    + rewrite (Z.ones_spec_low b n), (Z.ones_spec_low 16 n) by lia.
      rewrite Z.shiftl_spec_low by lia.
      rewrite orb_false_r, !andb_true_r. reflexivity.
    + rewrite (Z.ones_spec_high b n) by lia.
      rewrite !andb_false_r. reflexivity.
  - rewrite <- Z.land_assoc, Z.land_diag. reflexivity.
Qed.

Lemma C7_sign_extend_roundtrip_witness :
  Z.land (lsc_sign_extend (Z.land 0xABCD (Z.ones 5)) 5) (Z.ones 5)
  = Z.land 0xABCD (Z.ones 5).
Proof.
  apply (C7_sign_extend_roundtrip 0xABCD 5);
    [change LSC_MEMORY_MAX with 65536|]; lia.
Defined.

(** ** ADD in its two modes (C6) *)

(** C6: an ADD in immediate mode and an ADD in register mode with the same
    destination and first source leave the same value in the destination
    register when the second source register holds the sign extension of the
    immediate; that value is the 16-bit wrap-around sum. *)
Theorem C6_add_modes_agree (m : machine) (i_imm i_reg : Z) :
  wf m →
  Z.shiftr i_imm 12 = opcode_value LSC_OP_ADD →
  Z.shiftr i_reg 12 = opcode_value LSC_OP_ADD →
  field_mode i_imm = 1 →
  field_mode i_reg = 0 →
  field_dr i_imm = field_dr i_reg →
  field_sr1 i_imm = field_sr1 i_reg →
  reg_read m (field_sr2 i_reg) = lsc_sign_extend (field_imm5 i_imm) 5 →
  reg_read (execute i_imm m) (field_dr i_imm)
  = reg_read (execute i_reg m) (field_dr i_reg)
  ∧ reg_read (execute i_imm m) (field_dr i_imm)
    = u16 (reg_read m (field_sr1 i_imm)
           + lsc_sign_extend (field_imm5 i_imm) 5).
Proof.
  intros [Hlen _] Hop1 Hop2 Hm1 Hm2 Hdr Hsr Hval.
  unfold execute. rewrite Hop1, Hop2, opcode_of_value.
  rewrite !op_add_read by exact Hlen.
  unfold add_operand2. rewrite Hm1, Hm2, Hsr, Hval. simpl.
  split; reflexivity.
Qed.

(** [ADD R1, R0, #-10] against [ADD R1, R0, R2] with [R0 = 3] and
    [R2 = 0xFFF6]. *)
Lemma C6_add_modes_agree_witness :
  let m := reg_write LSC_R_R2 0xFFF6 (reg_write LSC_R_R0 3 boot) in
  reg_read (execute 0x1236 m) (field_dr 0x1236)
  = reg_read (execute 0x1202 m) (field_dr 0x1202)
  ∧ reg_read (execute 0x1236 m) (field_dr 0x1236)
    = u16 (reg_read m (field_sr1 0x1236)
           + lsc_sign_extend (field_imm5 0x1236) 5).
Proof.
  intros m.
  apply (C6_add_modes_agree m 0x1236 0x1202); try reflexivity.
  unfold m.
  apply reg_write_wf; [apply reg_write_wf; [apply boot_wf|]|];
    change LSC_MEMORY_MAX with 65536; lia.
Defined.

Example add_modes_value :
  let m := reg_write LSC_R_R2 0xFFF6 (reg_write LSC_R_R0 3 boot) in
  reg_read (execute 0x1236 m) LSC_R_R1 = 0xFFF9
  ∧ reg_read (execute 0x1202 m) LSC_R_R1 = 0xFFF9.
Proof. split; reflexivity. Qed.

(** ** The condition-flags register (C8) *)

Lemma reachable_cond (m : machine) : reachable m → cond_of m = LSC_FL_ZRO.
Proof.
  induction 1 as [out | instr m _ IH].
  - reflexivity.
  - rewrite execute_cond. exact IH.
Qed.

(** C8: in every machine reachable from the initial one the condition-flags
    register holds exactly one of POSITIVE, ZERO and NEGATIVE, and both
    [lsc_update_flags] and a dispatch step keep it so. *)
Theorem C8_one_flag_invariant (m : machine) :
  (reachable m → one_flag (cond_of m) = true)
  ∧ (∀ r, one_flag (cond_of m) = true →
          one_flag (cond_of (lsc_update_flags r m)) = true)
  ∧ (∀ instr, one_flag (cond_of m) = true →
              one_flag (cond_of (execute instr m)) = true).
Proof.
  split; [|split].
  - intros Hr. rewrite (reachable_cond m Hr). reflexivity.
  - intros r H. unfold cond_of. rewrite lsc_update_flags_read. exact H.
  - intros instr H. rewrite execute_cond. exact H.
Qed.

(** After [AND R0, R0, #0] and [ADD R0, R0, #1] from the initial machine. *)
Lemma C8_one_flag_invariant_witness :
  let m := execute 0x1021 (execute 0x5020 boot) in
  reachable m
  ∧ one_flag (cond_of m) = true
  ∧ one_flag (cond_of (lsc_update_flags LSC_R_R0 m)) = true
  ∧ one_flag (cond_of (execute 0x1236 m)) = true.
Proof.
  intros m.
  assert (Hr : reachable m) by (unfold m, boot; repeat constructor).
  destruct (C8_one_flag_invariant m) as (Hreach & Hflags & Hstep).
  pose proof (Hreach Hr) as Hone.
  split; [exact Hr|]. split; [exact Hone|].
  split; [apply Hflags, Hone | apply Hstep, Hone].
Defined.

(** ** Opcodes whose [case] is empty (C10) *)

(** C10: dispatching an instruction whose opcode is NOT, BR, JMP, JSR, LD,
    LDR, LEA, ST, STR, STI, TRAP, RTI or RES returns the machine it was given:
    registers, program counter, condition flags, memory and run flag are all
    unchanged. *)
Theorem C10_idle_opcodes_frame (instr : Z) (o : opcode) (m : machine) :
  opcode_of (Z.shiftr instr 12) = Some o →
  idle_opcode o = true →
  execute instr m = m
  ∧ lsc_reg (execute instr m) = lsc_reg m
  ∧ lsc_memory (execute instr m) = lsc_memory m
  ∧ running (execute instr m) = running m.
Proof.
  intros Ho Hidle.
  assert (E : execute instr m = m).
  { unfold execute. rewrite Ho.
    destruct o; try reflexivity; discriminate Hidle. }
  rewrite E. repeat split.
Qed.

(** [NOT R1, R2] on the initial machine. *)
Lemma C10_idle_opcodes_frame_witness :
  execute 0x92BF boot = boot
  ∧ lsc_reg (execute 0x92BF boot) = lsc_reg boot
  ∧ lsc_memory (execute 0x92BF boot) = lsc_memory boot
  ∧ running (execute 0x92BF boot) = running boot.
Proof.
  apply (C10_idle_opcodes_frame 0x92BF LSC_OP_NOT boot); reflexivity.
Defined.

(** ** The flag update on a concrete register (C1) *)

(** Whatever the register holds, the flag that [lsc_update_flags] stores is
    [LSC_FL_NEG], it is stored outside the register file, and the
    condition-flags register keeps its value. *)
Lemma lsc_update_flags_effect (r : Z) (m : machine) :
  cond_of (lsc_update_flags r m) = cond_of m
  ∧ outside (lsc_update_flags r m) !! (LSC_R_COND * LSC_R_COUNT)
    = Some LSC_FL_NEG.
Proof.
  split.
  - apply lsc_update_flags_read.
  - rewrite lsc_update_flags_unfold. simpl. apply lookup_insert_eq.
Qed.

(** C1, on the code: with [R0 = 1] (non-zero, bit 15 clear) and the flags at
    ZERO, [lsc_update_flags(R0)] leaves the condition-flags register at ZERO
    and stores NEGATIVE ninety elements after [lsc_reg[0]]; with [R0 = 0] it
    stores NEGATIVE as well; and after [ADD R0, R0, #1] on the initial
    machine [R0] is 1 while the condition-flags register is not POSITIVE. *)
Theorem C1_update_flags_on_positive :
  let m := reg_write LSC_R_R0 1 boot in
  reg_read m LSC_R_R0 = 1
  ∧ cond_of m = LSC_FL_ZRO
  ∧ cond_of (lsc_update_flags LSC_R_R0 m) = LSC_FL_ZRO
  ∧ cond_of (lsc_update_flags LSC_R_R0 m) ≠ LSC_FL_POS
  ∧ outside (lsc_update_flags LSC_R_R0 m) !! 90 = Some LSC_FL_NEG
  ∧ outside (lsc_update_flags LSC_R_R0 boot) !! 90 = Some LSC_FL_NEG
  ∧ reg_read (execute 0x1021 boot) LSC_R_R0 = 1
  ∧ cond_of (execute 0x1021 boot) ≠ LSC_FL_POS.
Proof.
  intros m. repeat split; try reflexivity; discriminate.
Qed.

(** ** The accesses of the flag update (C9) *)

(** C9, on the code: for every index [r], [lsc_update_flags(r, &lsc_reg)]
    reads the element [r * 10] places after [lsc_reg[0]] and writes the one 90
    places after it; the write is outside the ten slots of the register file
    and no slot of the register file, slot 9 included, is changed. *)
Theorem C9_update_flags_accesses (r : Z) (m : machine) :
  lsc_update_flags_accesses r m = [Read (r * 10); Write 90]
  ∧ in_lsc_reg 90 = false
  ∧ in_lsc_reg (r * 10) = (r =? 0)
  ∧ lsc_reg (lsc_update_flags r m) = lsc_reg m.
Proof.
  split; [apply lsc_update_flags_trace|].
  split; [reflexivity|].
  split; [|apply lsc_update_flags_reg].
  unfold in_lsc_reg, LSC_R_COUNT.
  destruct (Z.eqb_spec r 0) as [->|Hr]; [reflexivity|].
  destruct (Z.leb_spec 0 (r * 10)), (Z.ltb_spec (r * 10) 10);
    simpl; try reflexivity; lia.
Qed.

Example update_flags_accesses_r1 :
  lsc_update_flags_accesses LSC_R_R1 boot = [Read 10; Write 90]
  ∧ forallb (λ a, in_lsc_reg (access_offset a))
      (lsc_update_flags_accesses LSC_R_R1 boot) = false.
Proof. split; reflexivity. Qed.

(** ** The loop body (C2) *)

(** C2, on the code: with [ADD R0, R0, #1] stored at the address in the
    program counter, the instruction of the iteration is 0 (a BR), not the
    cell at the program counter, and the iteration leaves the machine, and so
    the program counter, as it was. *)
Theorem C2_loop_body_on_image :
  let m := with_memory {[PC_START := 0x1021]} boot in
  pc_of m = PC_START
  ∧ mem_read m (pc_of m) = 0x1021
  ∧ fetch m = 0
  ∧ loop_body m = m
  ∧ pc_of (loop_body m) = PC_START
  ∧ u16 (pc_of m + 1) = 0x3001
  ∧ pc_of (loop_body boot) = PC_START.
Proof.
  intros m. repeat split.
Qed.

(** ** The run flag (C3) *)

(** C3, on the code: [0xF025] is TRAP with vector [0x25] (HALT).  Dispatched
    on the running initial machine it returns that machine, so the run flag
    is still set where the claim has it cleared; and with the HALT trap stored
    at the address in the program counter, an iteration of the loop leaves the
    run flag set as well. *)
Theorem C3_halt_trap_keeps_running :
  let m := with_memory {[PC_START := 0xF025]} boot in
  opcode_of (Z.shiftr 0xF025 12) = Some LSC_OP_TRAP
  ∧ Z.land 0xF025 0xFF = 0x25
  ∧ running boot = true
  ∧ execute 0xF025 boot = boot
  ∧ running (execute 0xF025 boot) = true
  ∧ mem_read m (pc_of m) = 0xF025
  ∧ running m = true
  ∧ running (loop_body m) = true.
Proof. intros m. repeat split. Qed.

(** ** AND with an immediate (C4) *)

(** C4, on the code: [AND R0, R0, #-1] ([0x503F]) with [R0 = 0xFFFF].  The
    operand is the five bits as they are, [0x1F], where ADD decodes the same
    field to [0xFFFF]; [R0] becomes [0x001F], not [0xFFFF]. *)
Theorem C4_and_immediate_not_extended :
  let m := reg_write LSC_R_R0 0xFFFF boot in
  opcode_of (Z.shiftr 0x503F 12) = Some LSC_OP_AND
  ∧ field_mode 0x503F = 1
  ∧ and_operand2 0x503F m = 0x1F
  ∧ add_operand2 0x103F m = 0xFFFF
  ∧ lsc_sign_extend (field_imm5 0x503F) 5 = 0xFFFF
  ∧ reg_read (execute 0x503F m) (field_dr 0x503F) = 0x1F
  ∧ Z.land (reg_read m (field_sr1 0x503F))
      (lsc_sign_extend (field_imm5 0x503F) 5) = 0xFFFF.
Proof. intros m. repeat split. Qed.

(** What the code computes for an AND in immediate mode. *)
Lemma op_and_immediate (instr : Z) (m : machine) :
  wf m →
  field_mode instr = 1 →
  reg_read (op_and instr m) (field_dr instr)
  = Z.land (reg_read m (field_sr1 instr)) (Z.land instr 0x1F).
Proof.
  intros [Hlen _] Hmode. rewrite op_and_read by exact Hlen.
  unfold and_operand2. rewrite Hmode. reflexivity.
Qed.

(** ** LDI (C5) *)

(** C5, on the code: [LDI R0, #0] ([0xA000]) with [memory[PC] = 0x4000] and
    [memory[0x4000] = 0x42].  The register file is left as it was, so [R0] is
    still 0 and not [0x42].  The fields are also taken with other masks than
    bits 11-9 and bits 8-0: [LDI R7, #-1] ([0xAFFF]) decodes register 3 and
    offset 9. *)
Theorem C5_ldi_loads_nothing :
  let m := with_memory (<[0x4000 := 0x42]> {[PC_START := 0x4000]}) boot in
  opcode_of (Z.shiftr 0xA000 12) = Some LSC_OP_LDI
  ∧ mem_read m (mem_read m (u16 (pc_of m + 0))) = 0x42
  ∧ lsc_reg (execute 0xA000 m) = lsc_reg m
  ∧ reg_read (execute 0xA000 m) LSC_R_R0 = 0
  ∧ ldi_dr 0xAFFF = 3
  ∧ ldi_pcoffset9 0xAFFF = 9
  ∧ lsc_sign_extend (Z.land 0xAFFF 0x1FF) 9 = 0xFFFF.
Proof.
  intros m. repeat split.
Qed.

(** For every LDI the register file after the dispatch is the one before. *)
Lemma execute_ldi_reg (instr : Z) (m : machine) :
  opcode_of (Z.shiftr instr 12) = Some LSC_OP_LDI →
  lsc_reg (execute instr m) = lsc_reg m.
Proof. intros Ho. unfold execute. rewrite Ho. apply op_ldi_reg. Qed.

(** * Further properties of the code *)

(** ** Bit-level helpers *)

Lemma land_le_r (a b : Z) : 0 <= b → 0 <= Z.land a b <= b.
Proof.
  intros Hb. split; [apply Z.land_nonneg; right; exact Hb|].
  assert (Hsum : Z.land a b + Z.ldiff b a = b).
  { rewrite <- Z.add_lor_land.
    replace (Z.land (Z.land a b) (Z.ldiff b a)) with 0.
    - rewrite Z.add_0_r. apply Z.bits_inj'. intros n Hn.
      rewrite Z.lor_spec, Z.land_spec, Z.ldiff_spec.
      destruct (Z.testbit a n), (Z.testbit b n); reflexivity.
    - symmetry. apply Z.bits_inj'. intros n Hn.
      rewrite Z.land_spec, Z.land_spec, Z.ldiff_spec, Z.bits_0.
      destruct (Z.testbit a n), (Z.testbit b n); reflexivity. }
  assert (0 <= Z.ldiff b a) by (apply Z.ldiff_nonneg; left; exact Hb).
  lia.
Qed.

Lemma sign_bit_test (x b : Z) :
  negb (Z.land (Z.shiftr x (b - 1)) 1 =? 0) = Z.testbit x (b - 1).
Proof.
  rewrite Z.testbit_odd.
  change 1 with (Z.ones 1) at 2. rewrite Z.land_ones by lia.
  change (2 ^ 1) with 2. rewrite Zmod_odd.
  destruct (Z.odd (Z.shiftr x (b - 1))); reflexivity.
Qed.

Lemma lsc_sign_extend_unfold (x b : Z) :
  lsc_sign_extend x b =
  if Z.testbit x (b - 1) then u16 (Z.lor x (Z.shiftl 0xFFFF b)) else x.
Proof. unfold lsc_sign_extend. rewrite sign_bit_test. reflexivity. Qed.

Lemma top_bit_test (x b : Z) :
  1 <= b → 0 <= x < 2 ^ b →
  Z.testbit x (b - 1) = negb (x <? 2 ^ (b - 1)).
Proof.
  intros Hb Hx.
  assert (Hpow : 2 ^ b = 2 * 2 ^ (b - 1)).
  { rewrite <- Z.pow_succ_r by lia. f_equal. lia. }
  assert (Hd : 0 < 2 ^ (b - 1)) by (apply Z.pow_pos_nonneg; lia).
  destruct (Z.ltb_spec x (2 ^ (b - 1))) as [Hlt|Hge]; simpl.
  - apply Z.testbit_false; [lia|].
    rewrite Z.div_small by lia. reflexivity.
  - apply Z.testbit_true; [lia|].
    assert (Hq : x / 2 ^ (b - 1) = 1).
    { assert (x / 2 ^ (b - 1) < 2) by (apply Z.div_lt_upper_bound; lia).
      assert (1 <= x / 2 ^ (b - 1)) by (apply Z.div_le_lower_bound; lia).
      lia. }
    rewrite Hq. reflexivity.
Qed.

Lemma small_bits_high (x b n : Z) :
  0 <= b <= n → 0 <= x < 2 ^ b → Z.testbit x n = false.
Proof.
  intros Hb Hx.
  rewrite <- (Z.mod_small x (2 ^ b)) by exact Hx.
  apply Z.mod_pow2_bits_high. lia.
Qed.

Lemma mask_bit (b n : Z) :
  0 <= b → 0 <= n < 16 →
  Z.testbit (Z.shiftl 0xFFFF b) n = (b <=? n).
Proof.
  intros Hb Hn. destruct (Z.leb_spec b n) as [Hle|Hlt].
  - rewrite Z.shiftl_spec by lia.
    change 0xFFFF with (Z.ones 16). apply Z.ones_spec_low. lia.
  - apply Z.shiftl_spec_low. exact Hlt.
Qed.

(** ** [lsc_sign_extend] *)

Lemma lsc_sign_extend_signed (x b : Z) :
  1 <= b <= 16 →
  0 <= x < 2 ^ b →
  lsc_sign_extend x b = (if x <? 2 ^ (b - 1) then x else x + (2 ^ 16 - 2 ^ b))
  ∧ lsc_sign_extend x b = u16 (if x <? 2 ^ (b - 1) then x else x - 2 ^ b).
Proof.
  intros Hb Hx.
  assert (HP : 0 < 2 ^ b) by (apply Z.pow_pos_nonneg; lia).
  assert (HQ : 1 <= 2 ^ (16 - b)).
  { assert (0 < 2 ^ (16 - b)) by (apply Z.pow_pos_nonneg; lia). lia. }
  assert (HPQ : 2 ^ 16 = 2 ^ b * 2 ^ (16 - b)).
  { rewrite <- Z.pow_add_r by lia. f_equal. lia. }
  assert (Hle : 2 ^ b <= 2 ^ 16) by nia.
  rewrite lsc_sign_extend_unfold, top_bit_test by lia.
  destruct (Z.ltb_spec x (2 ^ (b - 1))) as [Hlt|Hge]; simpl.
  - split; [reflexivity|].
    unfold u16. change LSC_MEMORY_MAX with (2 ^ 16).
    rewrite Z.mod_small by lia. reflexivity.
  - assert (Hdisj : Z.land x (Z.shiftl 0xFFFF b) = 0).
    { apply Z.bits_inj'. intros n Hn.
      rewrite Z.land_spec, Z.bits_0.
      destruct (Z.ltb_spec n b) as [Hnb|Hnb].
      - rewrite Z.shiftl_spec_low by exact Hnb. apply andb_false_r.
      - rewrite (small_bits_high x b n) by lia. reflexivity. }
    assert (Hlor : Z.lor x (Z.shiftl 0xFFFF b) = x + 0xFFFF * 2 ^ b).
    { rewrite <- (Z.add_0_r (Z.lor _ _)), <- Hdisj, Z.add_lor_land.
      rewrite Z.shiftl_mul_pow2 by lia. reflexivity. }
    rewrite Hlor. unfold u16. change LSC_MEMORY_MAX with (2 ^ 16).
    replace (x + 0xFFFF * 2 ^ b)
      with (x + (2 ^ 16 - 2 ^ b) + (2 ^ b - 1) * 2 ^ 16)
      by (change (2 ^ 16) with 65536; lia).
    replace (x - 2 ^ b) with (x + (2 ^ 16 - 2 ^ b) + (-1) * 2 ^ 16) by lia.
    rewrite !Z.mod_add by lia.
    rewrite Z.mod_small by lia. split; reflexivity.
Qed.

(** The value of the extension: a field of [b] bits below [2^(b-1)] is
    returned as it is, a field from [2^(b-1)] on is moved up by
    [2^16 - 2^b], which is the 16-bit two's complement of [x - 2^b]. *)
Theorem sign_extend_value (x b : Z) :
  1 <= b <= 16 →
  0 <= x < 2 ^ b →
  lsc_sign_extend x b = (if x <? 2 ^ (b - 1) then x else x + (2 ^ 16 - 2 ^ b))
  ∧ lsc_sign_extend x b = u16 (if x <? 2 ^ (b - 1) then x else x - 2 ^ b).
Proof. exact (lsc_sign_extend_signed x b). Qed.

(** [0x16] as a field of five bits is -10. *)
Lemma sign_extend_value_witness :
  lsc_sign_extend 0x16 5
  = (if 0x16 <? 2 ^ (5 - 1) then 0x16 else 0x16 + (2 ^ 16 - 2 ^ 5))
  ∧ lsc_sign_extend 0x16 5
    = u16 (if 0x16 <? 2 ^ (5 - 1) then 0x16 else 0x16 - 2 ^ 5).
Proof. apply (sign_extend_value 0x16 5); simpl; lia. Defined.

(** Every bit of the result from position [b] up to 15 is a copy of bit
    [b - 1] of the field, and the bits of the field itself are kept. *)
Theorem sign_extend_bits (x b n : Z) :
  1 <= b <= 16 →
  0 <= x < 2 ^ b →
  0 <= n < 16 →
  Z.testbit (lsc_sign_extend x b) n
  = if n <? b then Z.testbit x n else Z.testbit x (b - 1).
Proof.
  intros Hb Hx Hn. rewrite lsc_sign_extend_unfold.
  destruct (Z.testbit x (b - 1)) eqn:Hsign.
  - rewrite u16_land, Z.land_spec, Z.lor_spec, Z.ones_spec_low by lia.
    rewrite mask_bit, andb_true_r by lia.
    destruct (Z.ltb_spec n b) as [Hlt|Hge].
    + replace (b <=? n) with false by (symmetry; apply Z.leb_gt; lia).
      apply orb_false_r.
    + replace (b <=? n) with true by (symmetry; apply Z.leb_le; lia).
      apply orb_true_r.
  - destruct (Z.ltb_spec n b) as [Hlt|Hge]; [reflexivity|].
    apply (small_bits_high x b n); lia.
Qed.

Lemma sign_extend_bits_witness :
  Z.testbit (lsc_sign_extend 0x16 5) 12
  = if 12 <? 5 then Z.testbit 0x16 12 else Z.testbit 0x16 (5 - 1).
Proof. apply (sign_extend_bits 0x16 5 12); simpl; lia. Defined.

(** Extending twice is extending once, for any 16-bit word (also one whose
    bits above the field are not clear). *)
Theorem sign_extend_idempotent (x b : Z) :
  0 <= x < LSC_MEMORY_MAX →
  1 <= b <= 16 →
  lsc_sign_extend (lsc_sign_extend x b) b = lsc_sign_extend x b.
Proof.
  intros Hx Hb.
  rewrite (lsc_sign_extend_unfold x b).
  destruct (Z.testbit x (b - 1)) eqn:Hsign.
  - rewrite lsc_sign_extend_unfold.
    assert (Hkept :
      Z.testbit (u16 (Z.lor x (Z.shiftl 0xFFFF b))) (b - 1) = true).
    { rewrite u16_land, Z.land_spec, Z.lor_spec, Hsign.
      rewrite Z.ones_spec_low by lia. reflexivity. }
    rewrite Hkept. apply Z.bits_inj'. intros n Hn.
    rewrite !u16_land, !Z.land_spec, !Z.lor_spec, !Z.land_spec, !Z.lor_spec.
    destruct (Z.testbit x n), (Z.testbit (Z.shiftl 0xFFFF b) n),
      (Z.testbit (Z.ones 16) n); reflexivity.
  - rewrite lsc_sign_extend_unfold, Hsign. reflexivity.
Qed.

Lemma sign_extend_idempotent_witness :
  lsc_sign_extend (lsc_sign_extend 0xABCD 9) 9 = lsc_sign_extend 0xABCD 9.
Proof.
  apply (sign_extend_idempotent 0xABCD 9);
    [change LSC_MEMORY_MAX with 65536|]; lia.
Defined.

(** The result is again a 16-bit word, whatever the width asked for. *)
Lemma lsc_sign_extend_range (x b : Z) :
  0 <= x < LSC_MEMORY_MAX → 0 <= lsc_sign_extend x b < LSC_MEMORY_MAX.
Proof.
  intros Hx. rewrite lsc_sign_extend_unfold.
  destruct (Z.testbit x (b - 1)); [apply u16_range | exact Hx].
Qed.

(** ** [lsc_update_flags] *)

(** For the register indices that the callers pass, 0 to 7, the machine
    after the call depends neither on the register named nor on what any
    register holds, and a second call changes nothing more. *)
Theorem update_flags_blind (r1 r2 : Z) (m : machine) :
  0 <= r1 <= 7 →
  0 <= r2 <= 7 →
  lsc_update_flags r1 m = lsc_update_flags r2 m
  ∧ lsc_update_flags r1 (lsc_update_flags r2 m) = lsc_update_flags r2 m
  ∧ ∀ i v, lsc_update_flags r1 (reg_write i v m)
           = reg_write i v (lsc_update_flags r2 m).
Proof.
  intros _ _.
  rewrite !lsc_update_flags_unfold. split; [reflexivity|]. split.
  - unfold with_outside. simpl. rewrite insert_insert_eq. reflexivity.
  - intros i v. rewrite lsc_update_flags_unfold. reflexivity.
Qed.

(** [R0] against [R5] on a machine with [R0 = 0] and [R5 = 0x8000]. *)
Lemma update_flags_blind_witness :
  let m := reg_write LSC_R_R5 0x8000 boot in
  lsc_update_flags LSC_R_R0 m = lsc_update_flags LSC_R_R5 m
  ∧ lsc_update_flags LSC_R_R0 (lsc_update_flags LSC_R_R5 m)
    = lsc_update_flags LSC_R_R5 m
  ∧ ∀ i v, lsc_update_flags LSC_R_R0 (reg_write i v m)
           = reg_write i v (lsc_update_flags LSC_R_R5 m).
Proof.
  intros m.
  apply (update_flags_blind LSC_R_R0 LSC_R_R5 m);
    unfold LSC_R_R0, LSC_R_R5; lia.
Defined.

(** ** Well-formed machines under the dispatch *)

Lemma reg_read_range (m : machine) (i : Z) :
  wf m → 0 <= reg_read m i < LSC_MEMORY_MAX.
Proof.
  intros [_ Hall]. unfold reg_read.
  destruct (lsc_reg m !! Z.to_nat i) as [v|] eqn:Hv; simpl.
  - exact (proj1 (Forall_lookup _ _) Hall _ _ Hv).
  - change LSC_MEMORY_MAX with 65536. lia.
Qed.

Lemma lsc_update_flags_wf (r : Z) (m : machine) :
  wf m → wf (lsc_update_flags r m).
Proof. unfold wf. rewrite lsc_update_flags_reg. tauto. Qed.

Lemma main_init_wf (out : gmap Z Z) : wf (main_init out).
Proof.
  split; [reflexivity|].
  unfold main_init, zeroed, reg_write, with_reg. simpl.
  repeat constructor; vm_compute; intuition discriminate.
Qed.

Lemma execute_keeps_wf (instr : Z) (m : machine) :
  wf m → wf (execute instr m).
Proof.
  intros Hwf. unfold execute.
  destruct (opcode_of (Z.shiftr instr 12)) as [[]|]; try exact Hwf.
  - apply lsc_update_flags_wf, reg_write_wf; [exact Hwf | apply u16_range].
  - apply lsc_update_flags_wf, reg_write_wf; [exact Hwf|].
    pose proof (reg_read_range m (field_sr1 instr) Hwf) as Hr.
    rewrite Z.land_comm.
    pose proof (land_le_r (and_operand2 instr m)
                  (reg_read m (field_sr1 instr)) (proj1 Hr)).
    lia.
  - apply lsc_update_flags_wf, Hwf.
Qed.

(** Every dispatch keeps the register file at ten slots, each holding a
    value in [0, 2^16). *)
Theorem execute_wf (instr : Z) (m : machine) : wf m → wf (execute instr m).
Proof. exact (execute_keeps_wf instr m). Qed.

(** [ADD R3, R3, #-1] on the initial machine. *)
Lemma execute_wf_witness : wf (execute 0x16FF boot).
Proof. apply (execute_wf 0x16FF boot), main_init_wf. Defined.

(** ** What a dispatch leaves alone *)

Lemma execute_pc (instr : Z) (m : machine) : pc_of (execute instr m) = pc_of m.
Proof.
  assert (Hpc : Z.to_nat (field_dr instr) ≠ Z.to_nat LSC_R_PC).
  { pose proof (field_dr_range instr). unfold LSC_R_PC. lia. }
  unfold execute.
  destruct (opcode_of (Z.shiftr instr 12)) as [[]|]; try reflexivity.
  - unfold op_add, pc_of. rewrite lsc_update_flags_read.
    apply reg_read_write_other, Hpc.
  - unfold op_and, pc_of. rewrite lsc_update_flags_read.
    apply reg_read_write_other, Hpc.
  - unfold op_ldi, pc_of. apply lsc_update_flags_read.
Qed.

Lemma execute_length (instr : Z) (m : machine) :
  length (lsc_reg (execute instr m)) = length (lsc_reg m).
Proof.
  unfold execute.
  destruct (opcode_of (Z.shiftr instr 12)) as [[]|]; try reflexivity.
  - unfold op_add. rewrite lsc_update_flags_reg. apply reg_write_length.
  - unfold op_and. rewrite lsc_update_flags_reg. apply reg_write_length.
  - unfold op_ldi. rewrite lsc_update_flags_reg. reflexivity.
Qed.

(** No instruction, whatever its sixteen bits, changes the program counter,
    a cell of [lsc_memory], the run flag or the size of the register file. *)
Theorem execute_frame (instr : Z) (m : machine) :
  pc_of (execute instr m) = pc_of m
  ∧ lsc_memory (execute instr m) = lsc_memory m
  ∧ running (execute instr m) = running m
  ∧ length (lsc_reg (execute instr m)) = length (lsc_reg m).
Proof.
  split; [apply execute_pc|].
  split; [apply execute_memory|].
  split; [apply execute_running | apply execute_length].
Qed.

(** A dispatch changes no register other than the one named by bits 11-9 of
    the instruction. *)
Theorem execute_other_registers (instr j : Z) (m : machine) :
  Z.to_nat j ≠ Z.to_nat (field_dr instr) →
  reg_read (execute instr m) j = reg_read m j.
Proof.
  intros Hj. unfold execute.
  destruct (opcode_of (Z.shiftr instr 12)) as [[]|]; try reflexivity.
  - unfold op_add. rewrite lsc_update_flags_read.
    apply reg_read_write_other. congruence.
  - unfold op_and. rewrite lsc_update_flags_read.
    apply reg_read_write_other. congruence.
  - unfold op_ldi. apply lsc_update_flags_read.
Qed.

(** [ADD R1, R0, #-10] leaves [R0] alone. *)
Lemma execute_other_registers_witness :
  reg_read (execute 0x1236 (reg_write LSC_R_R0 3 boot)) LSC_R_R0
  = reg_read (reg_write LSC_R_R0 3 boot) LSC_R_R0.
Proof.
  apply (execute_other_registers 0x1236 LSC_R_R0). vm_compute. lia.
Defined.

(** ** Machines reachable from the start of [main] *)

(** Whatever instructions are dispatched from the initial machine, the
    register file stays well formed, the program counter stays at
    [PC_START], [lsc_memory] stays all zero and the run flag stays set. *)
Theorem reachable_invariant (m : machine) :
  reachable m →
  wf m ∧ pc_of m = PC_START ∧ lsc_memory m = ∅ ∧ running m = true.
Proof.
  induction 1 as [out | instr m _ (Hwf & Hpc & Hmem & Hrun)].
  - split; [apply main_init_wf|]. repeat split.
  - split; [apply execute_keeps_wf, Hwf|].
    rewrite execute_pc, execute_memory, execute_running. auto.
Qed.

Lemma reachable_invariant_witness :
  let m := execute 0x1021 (execute 0x5020 boot) in
  wf m ∧ pc_of m = PC_START ∧ lsc_memory m = ∅ ∧ running m = true.
Proof.
  intros m. apply (reachable_invariant m).
  unfold m, boot. repeat constructor.
Defined.

(** ** ADD *)

Lemma u16_small (v : Z) : 0 <= v < LSC_MEMORY_MAX → u16 v = v.
Proof. intros Hv. unfold u16. apply Z.mod_small, Hv. Qed.

Lemma execute_add (instr : Z) (m : machine) :
  Z.shiftr instr 12 = opcode_value LSC_OP_ADD →
  execute instr m = op_add instr m.
Proof. intros Hop. unfold execute. rewrite Hop. reflexivity. Qed.

Lemma execute_and (instr : Z) (m : machine) :
  Z.shiftr instr 12 = opcode_value LSC_OP_AND →
  execute instr m = op_and instr m.
Proof. intros Hop. unfold execute. rewrite Hop. reflexivity. Qed.

Lemma field_imm5_range (instr : Z) : 0 <= field_imm5 instr < 2 ^ 5.
Proof.
  pose proof (land_le_r instr 0x1F ltac:(lia)) as H.
  unfold field_imm5. change (2 ^ 5) with 32. lia.
Qed.

(** An ADD in immediate mode adds the five-bit field read as a two's
    complement number between -16 and 15, modulo [2^16]. *)
Theorem add_immediate_signed (instr : Z) (m : machine) :
  wf m →
  Z.shiftr instr 12 = opcode_value LSC_OP_ADD →
  field_mode instr = 1 →
  reg_read (execute instr m) (field_dr instr)
  = u16 (reg_read m (field_sr1 instr)
         + (if field_imm5 instr <? 16
            then field_imm5 instr
            else field_imm5 instr - 32)).
Proof.
  intros Hwf Hop Hmode.
  rewrite (execute_add instr m Hop), op_add_read by apply Hwf.
  unfold add_operand2. rewrite Hmode. simpl.
  destruct (lsc_sign_extend_signed (field_imm5 instr) 5 ltac:(lia)
              (field_imm5_range instr)) as [_ ->].
  change (2 ^ (5 - 1)) with 16. change (2 ^ 5) with 32.
  unfold u16. rewrite Zplus_mod_idemp_r. reflexivity.
Qed.

(** [ADD R1, R0, #-10] with [R0 = 3] leaves [u16 (3 - 10)] in [R1]. *)
Lemma add_immediate_signed_witness :
  reg_read (execute 0x1236 (reg_write LSC_R_R0 3 boot)) (field_dr 0x1236)
  = u16 (reg_read (reg_write LSC_R_R0 3 boot) (field_sr1 0x1236)
         + (if field_imm5 0x1236 <? 16
            then field_imm5 0x1236
            else field_imm5 0x1236 - 32)).
Proof.
  apply (add_immediate_signed 0x1236 (reg_write LSC_R_R0 3 boot));
    try reflexivity.
  apply reg_write_wf; [apply boot_wf|].
  change LSC_MEMORY_MAX with 65536. lia.
Defined.

(** Two ADDs in immediate mode on one register whose immediates cancel
    modulo [2^16] give the register its value back. *)
Theorem add_immediate_inverse (i1 i2 : Z) (m : machine) :
  wf m →
  Z.shiftr i1 12 = opcode_value LSC_OP_ADD →
  Z.shiftr i2 12 = opcode_value LSC_OP_ADD →
  field_mode i1 = 1 →
  field_mode i2 = 1 →
  field_sr1 i1 = field_dr i1 →
  field_dr i2 = field_dr i1 →
  field_sr1 i2 = field_dr i1 →
  u16 (lsc_sign_extend (field_imm5 i1) 5
       + lsc_sign_extend (field_imm5 i2) 5) = 0 →
  reg_read (execute i2 (execute i1 m)) (field_dr i1)
  = reg_read m (field_dr i1).
Proof.
  intros Hwf Hop1 Hop2 Hm1 Hm2 Hs1 Hd2 Hs2 Hsum.
  pose proof (execute_keeps_wf i1 m Hwf) as Hwf1.
  rewrite <- Hd2 at 1.
  rewrite (execute_add i2 _ Hop2), op_add_read by apply Hwf1.
  unfold add_operand2 at 1. rewrite Hm2, Hs2. simpl.
  rewrite (execute_add i1 _ Hop1), op_add_read by apply Hwf.
  unfold add_operand2. rewrite Hm1, Hs1. simpl.
  set (v := reg_read m (field_dr i1)).
  set (a := lsc_sign_extend (field_imm5 i1) 5) in *.
  set (b := lsc_sign_extend (field_imm5 i2) 5) in *.
  unfold u16 in *. rewrite Zplus_mod_idemp_l.
  replace (v + a + b) with (v + (a + b)) by lia.
  rewrite <- Zplus_mod_idemp_r, Hsum, Z.add_0_r.
  apply Z.mod_small, (reg_read_range m (field_dr i1) Hwf).
Qed.

(** [ADD R0, R0, #5] followed by [ADD R0, R0, #-5] with [R0 = 7]. *)
Lemma add_immediate_inverse_witness :
  reg_read (execute 0x103B (execute 0x1025 (reg_write LSC_R_R0 7 boot)))
    (field_dr 0x1025)
  = reg_read (reg_write LSC_R_R0 7 boot) (field_dr 0x1025).
Proof.
  apply (add_immediate_inverse 0x1025 0x103B (reg_write LSC_R_R0 7 boot));
    try reflexivity.
  apply reg_write_wf; [apply boot_wf|].
  change LSC_MEMORY_MAX with 65536. lia.
Defined.

(** ** AND *)

(** An AND in immediate mode leaves in the destination the bitwise and of
    the source with the five bits of the field, a value between 0 and 31
    whatever the field; with the field at 0 it clears the destination. *)
Theorem and_immediate_low_bits (instr : Z) (m : machine) :
  wf m →
  Z.shiftr instr 12 = opcode_value LSC_OP_AND →
  field_mode instr = 1 →
  reg_read (execute instr m) (field_dr instr)
  = Z.land (reg_read m (field_sr1 instr)) (field_imm5 instr)
  ∧ 0 <= reg_read (execute instr m) (field_dr instr) <= 31
  ∧ (field_imm5 instr = 0 →
     reg_read (execute instr m) (field_dr instr) = 0).
Proof.
  intros Hwf Hop Hmode.
  rewrite (execute_and instr m Hop), op_and_read by apply Hwf.
  unfold and_operand2. rewrite Hmode. simpl.
  split; [reflexivity|]. split.
  - pose proof (field_imm5_range instr) as Hi. change (2 ^ 5) with 32 in Hi.
    pose proof (land_le_r (reg_read m (field_sr1 instr)) (field_imm5 instr)
                  (proj1 Hi)).
    lia.
  - intros ->. apply Z.land_0_r.
Qed.

(** [AND R0, R0, #0] with [R0 = 0xBEEF]. *)
Lemma and_immediate_low_bits_witness :
  let m := reg_write LSC_R_R0 0xBEEF boot in
  reg_read (execute 0x5020 m) (field_dr 0x5020)
  = Z.land (reg_read m (field_sr1 0x5020)) (field_imm5 0x5020)
  ∧ 0 <= reg_read (execute 0x5020 m) (field_dr 0x5020) <= 31
  ∧ reg_read (execute 0x5020 m) (field_dr 0x5020) = 0.
Proof.
  intros m.
  assert (Hwf : wf m).
  { apply reg_write_wf; [apply boot_wf|].
    change LSC_MEMORY_MAX with 65536. lia. }
  destruct (and_immediate_low_bits 0x5020 m Hwf eq_refl eq_refl)
    as (Hval & Hrange & Hzero).
  split; [exact Hval|]. split; [exact Hrange|].
  apply Hzero. reflexivity.
Defined.

(** ** Register mode *)

(** Two instructions of one opcode in register mode that name the same
    destination and the same two source registers in either order take the
    machine to the same machine. *)
Theorem register_mode_symmetric (i1 i2 : Z) (m : machine) :
  Z.shiftr i1 12 = Z.shiftr i2 12 →
  field_mode i1 = 0 →
  field_mode i2 = 0 →
  field_dr i1 = field_dr i2 →
  field_sr1 i1 = field_sr2 i2 →
  field_sr2 i1 = field_sr1 i2 →
  execute i1 m = execute i2 m.
Proof.
  intros Hop Hm1 Hm2 Hdr H12 H21.
  unfold execute. rewrite Hop.
  destruct (opcode_of (Z.shiftr i2 12)) as [[]|]; try reflexivity.
  - unfold op_add, add_operand2.
    rewrite Hm1, Hm2, Hdr, H12, H21. simpl.
    rewrite Z.add_comm. reflexivity.
  - unfold op_and, and_operand2.
    rewrite Hm1, Hm2, Hdr, H12, H21. simpl.
    rewrite Z.land_comm. reflexivity.
  - unfold op_ldi. rewrite !lsc_update_flags_unfold. reflexivity.
Qed.

(** [ADD R2, R0, R1] against [ADD R2, R1, R0]. *)
Lemma register_mode_symmetric_witness :
  let m := reg_write LSC_R_R1 0xFFFE (reg_write LSC_R_R0 5 boot) in
  execute 0x1401 m = execute 0x1440 m.
Proof.
  intros m. apply (register_mode_symmetric 0x1401 0x1440 m); reflexivity.
Defined.

(** ** LDI *)

(** The offset that the LDI case computes is made of bits 0 and 3 of the
    instruction only: it lies between 0 and 9 and is never extended to a
    negative offset, and the register handed to the flag update is one of
    [R0] to [R3]. *)
Theorem ldi_fields (instr : Z) :
  ldi_pcoffset9 instr = Z.land instr 0x9
  ∧ 0 <= ldi_pcoffset9 instr <= 9
  ∧ 0 <= ldi_dr instr <= 3.
Proof.
  assert (Hoff : ldi_pcoffset9 instr = Z.land instr 0x9).
  { unfold ldi_pcoffset9. rewrite lsc_sign_extend_unfold.
    rewrite Z.land_spec. change (Z.testbit 9 (9 - 1)) with false.
    rewrite andb_false_r. reflexivity. }
  split; [exact Hoff|]. rewrite Hoff. split.
  - apply land_le_r. lia.
  - apply land_le_r. lia.
Qed.

(** ** The opcode of an instruction *)

(** Every 16-bit instruction selects one of the sixteen opcodes, the one
    whose number is in its bits 15-12. *)
Theorem opcode_of_instruction (instr : Z) :
  0 <= instr < LSC_MEMORY_MAX →
  ∃ o, opcode_of (Z.shiftr instr 12) = Some o
       ∧ opcode_value o = Z.shiftr instr 12.
Proof.
  intros Hi. change LSC_MEMORY_MAX with 65536 in Hi.
  rewrite Z.shiftr_div_pow2 by lia. change (2 ^ 12) with 4096.
  assert (Hq : 0 <= instr / 4096 < 16).
  { split; [apply Z.div_pos; lia | apply Z.div_lt_upper_bound; lia]. }
  destruct (instr / 4096) as [|p|p]; [| |lia].
  - exists LSC_OP_BR. split; reflexivity.
  - do 4 (try destruct p as [p|p|]); try lia;
      eexists; (split; [reflexivity|]);
      match goal with
      | |- opcode_value ?o = _ => reflexivity
      end.
Qed.

Lemma opcode_of_instruction_witness :
  ∃ o, opcode_of (Z.shiftr 0xF025 12) = Some o
       ∧ opcode_value o = Z.shiftr 0xF025 12.
Proof.
  apply (opcode_of_instruction 0xF025).
  change LSC_MEMORY_MAX with 65536. lia.
Defined.

(** ** The loop and [main] *)

(** However many iterations of the loop are followed, the machine is the one
    the loop was entered with. *)
Theorem run_no_progress (fuel : nat) (m : machine) : run fuel m = m.
Proof. apply run_fixed. Qed.

(** [main] called with fewer than two arguments prints the usage text and
    exits with status 2; called with two or more it is still in its loop,
    on the initial machine, after any number of iterations, and so never
    reaches [return 0]. *)
Theorem main_outcome (fuel : nat) (argc : Z) (out : gmap Z Z) :
  main fuel argc out
  = (if argc <? 2 then Exited 2 usage else StillRunning (main_init out))
  ∧ ∀ status, main fuel argc out ≠ Returned status.
Proof.
  assert (H : main fuel argc out
    = if argc <? 2 then Exited 2 usage else StillRunning (main_init out)).
  { unfold main. destruct (argc <? 2); [reflexivity|].
    rewrite run_fixed. reflexivity. }
  split; [exact H|].
  intros status. rewrite H. destruct (argc <? 2); discriminate.
Qed.
